(** * orchestrator_client.rs: a shallow embedding of the orchestrator
    transport client (make_request, get_proof_task, submit_proof) and of
    the protobuf wire encoding of its request messages. *)

From Stdlib Require Import ZArith List String Lia Bool.
From Stdlib Require Import SpecFloat.
Import ListNotations.
Open Scope string_scope.
Open Scope Z_scope.
Open Scope list_scope.

(** ** Rust-side data *)

(** [Result<T, Box<dyn Error>>]: the error is kept as the text its
    [Display] implementation prints. *)
Inductive result (A E : Type) : Type :=
| Ok (a : A)
| Err (e : E).
Arguments Ok {A E} a.
Arguments Err {A E} e.

(** A Rust [String] / [&str] / [Vec<u8>] inside a message: its bytes, each
    an 8-bit value. *)
Definition bytes := list Z.

Definition is_empty {A} (l : list A) : bool :=
  match l with [] => true | _ => false end.

(** ** Effects of the async code

    Each [.await] on the network, each call of an external collaborator and
    the final [println!] is a node of the tree; pure code runs in between. *)

Inductive verb := POST | GET.

(** Outcome of [RequestBuilder::send().await]: a transport error (carrying
    reqwest's diagnostic text) or a response with its status code. *)
Inductive send_result :=
| SendErr (diag : string)
| SendOk (status : Z).

Inductive io (A : Type) : Type :=
| Ret (a : A)
| Send (v : verb) (url : string) (headers : list (string * string))
       (body : bytes) (k : send_result -> io A)
| ReadText (k : result string string -> io A)    (* response.text().await *)
| ReadBytes (k : result bytes string -> io A)    (* response.bytes().await *)
| GetMemoryInfo (k : Z * Z -> io A)              (* memory_stats::get_memory_info() *)
| MeasureFlops (k : spec_float -> io A)          (* flops::measure_flops() *)
| Println (s : string) (k : io A).
Arguments Ret {A} a.
Arguments Send {A} v url headers body k.
Arguments ReadText {A} k.
Arguments ReadBytes {A} k.
Arguments GetMemoryInfo {A} k.
Arguments MeasureFlops {A} k.
Arguments Println {A} s k.

Fixpoint io_bind {A B} (m : io A) (f : A -> io B) : io B :=
  match m with
  | Ret a => f a
  | Send v u h b k => Send v u h b (fun r => io_bind (k r) f)
  | ReadText k => ReadText (fun r => io_bind (k r) f)
  | ReadBytes k => ReadBytes (fun r => io_bind (k r) f)
  | GetMemoryInfo k => GetMemoryInfo (fun r => io_bind (k r) f)
  | MeasureFlops k => MeasureFlops (fun r => io_bind (k r) f)
  | Println s k => Println s (io_bind k f)
  end.

Notation "x <- m ;; k" := (io_bind m (fun x => k))
  (at level 61, m at next level, right associativity).

(** The world the client runs against: the remote service and the local
    measurement collaborators. *)
Record env := {
  env_send : verb -> string -> list (string * string) -> bytes -> send_result;
  env_text : result string string;
  env_bytes : result bytes string;
  env_memory : Z * Z;
  env_flops : spec_float
}.

Inductive event :=
| EvSend (v : verb) (url : string) (headers : list (string * string)) (body : bytes)
| EvText
| EvBytes
| EvMemory
| EvFlops
| EvPrint (s : string).

(** Run a program against a world: the I/O events it performs, in order,
    and its final value. *)
Fixpoint run {A} (w : env) (m : io A) : list event * A :=
  match m with
  | Ret a => ([], a)
  | Send v u h b k =>
      let '(t, a) := run w (k (env_send w v u h b)) in (EvSend v u h b :: t, a)
  | ReadText k => let '(t, a) := run w (k (env_text w)) in (EvText :: t, a)
  | ReadBytes k => let '(t, a) := run w (k (env_bytes w)) in (EvBytes :: t, a)
  | GetMemoryInfo k => let '(t, a) := run w (k (env_memory w)) in (EvMemory :: t, a)
  | MeasureFlops k => let '(t, a) := run w (k (env_flops w)) in (EvFlops :: t, a)
  | Println s k => let '(t, a) := run w k in (EvPrint s :: t, a)
  end.

Definition is_send (e : event) : bool :=
  match e with EvSend _ _ _ _ => true | _ => false end.


(** ** prost's varint (prost::encoding::{encode_varint, decode_varint}) *)

(** [loop { if value < 0x80 { put(value); break } put((value & 0x7F) | 0x80);
    value >>= 7 }]; a [u64] has at most ten 7-bit groups, so the fuel
    [10] never runs out on a [u64]. *)
Fixpoint encode_varint_aux (fuel : nat) (value : Z) : bytes :=
  match fuel with
  | O => [value]
  | S f =>
      if value <? 128 then [value]
      else Z.lor (Z.land value 127) 128 :: encode_varint_aux f (Z.shiftr value 7)
  end.

Definition encode_varint (value : Z) : bytes := encode_varint_aux 10 value.

(** [for count in 0..min(10, remaining) { value |= (byte & 0x7F) << (count*7);
    if byte <= 0x7F { if count == 9 && byte >= 0x02 { invalid } return value } }
    invalid] *)
Fixpoint decode_varint_aux (k : nat) (shift value : Z) (buf : bytes)
  : option (Z * bytes) :=
  match k, buf with
  | O, _ => None
  | _, [] => None
  | S k', b :: rest =>
      let value' := Z.lor value (Z.shiftl (Z.land b 127) shift) in
      if b <=? 127 then
        if (shift =? 63) && (2 <=? b) then None else Some (value', rest)
      else decode_varint_aux k' (shift + 7) value' rest
  end.

Definition decode_varint (buf : bytes) : option (Z * bytes) :=
  decode_varint_aux 10 0 0 buf.

(** ** Protobuf fields (prost::encoding::{encode_key, decode_key, skip_field}) *)

(** A field's payload by wire type: 0 varint, 2 length-delimited, 1 and 5
    fixed 64 and 32 bits.  The deprecated group wire types 3 and 4 are not
    modelled: the parser below rejects them. *)
Inductive wire :=
| WVarint (v : Z)
| WLen (bs : bytes)
| WFixed64 (bs : bytes)
| WFixed32 (bs : bytes).

Definition field := (Z * wire)%type.

Definition encode_key (tag wire_type : Z) : bytes :=
  encode_varint (Z.lor (Z.shiftl tag 3) wire_type).

Definition encode_field (f : field) : bytes :=
  let '(tag, w) := f in
  match w with
  | WVarint v => encode_key tag 0 ++ encode_varint v
  | WLen bs => encode_key tag 2 ++ encode_varint (Z.of_nat (List.length bs)) ++ bs
  | WFixed64 bs => encode_key tag 1 ++ bs
  | WFixed32 bs => encode_key tag 5 ++ bs
  end.

Definition encode_fields (fs : list field) : bytes := flat_map encode_field fs.

Definition take_fixed (n : nat) (buf : bytes) : option (bytes * bytes) :=
  if (List.length buf <? n)%nat then None else Some (firstn n buf, skipn n buf).

(** decode_key: the key is a varint of at most [u32::MAX]; wire type is its
    low 3 bits, tag the rest, and tag 0 is invalid.  Then the payload. *)
Definition parse_field (buf : bytes) : option (field * bytes) :=
  match decode_varint buf with
  | None => None
  | Some (key, r) =>
      if 2 ^ 32 - 1 <? key then None else
      let wire_type := Z.land key 7 in
      let tag := Z.shiftr key 3 in
      if tag <? 1 then None
      else if wire_type =? 0 then
        match decode_varint r with
        | Some (v, r') => Some ((tag, WVarint v), r')
        | None => None
        end
      else if wire_type =? 2 then
        match decode_varint r with
        | Some (len, r') =>
            if Z.of_nat (List.length r') <? len then None
            else Some ((tag, WLen (firstn (Z.to_nat len) r')), skipn (Z.to_nat len) r')
        | None => None
        end
      else if wire_type =? 1 then
        match take_fixed 8 r with
        | Some (bs, r') => Some ((tag, WFixed64 bs), r')
        | None => None
        end
      else if wire_type =? 5 then
        match take_fixed 4 r with
        | Some (bs, r') => Some ((tag, WFixed32 bs), r')
        | None => None
        end
      else None
  end.

(** The decode loop: fields until the buffer is empty.  Every field takes at
    least one byte, so the length of the buffer is enough fuel. *)
Fixpoint parse_fields (fuel : nat) (buf : bytes) : option (list field) :=
  match buf with
  | [] => Some []
  | _ :: _ =>
      match fuel with
      | O => None
      | S f =>
          match parse_field buf with
          | None => None
          | Some (fld, r) =>
              match parse_fields f r with
              | Some fs => Some (fld :: fs)
              | None => None
              end
          end
      end
  end.

(** Merging the decoded fields one by one into a message ([Message::merge]). *)
Fixpoint merge_all {M} (merge_field : M -> field -> option M) (m : M)
    (fs : list field) : option M :=
  match fs with
  | [] => Some m
  | f :: fs' =>
      match merge_field m f with
      | Some m' => merge_all merge_field m' fs'
      | None => None
      end
  end.

(** [std::str::from_utf8], which prost runs on every decoded [string]. *)
Definition utf8_cont (c : Z) : bool := (128 <=? c) && (c <=? 191).

Fixpoint utf8_valid (bs : bytes) : bool :=
  match bs with
  | [] => true
  | b :: r =>
      if (0 <=? b) && (b <=? 127) then utf8_valid r
      else if (194 <=? b) && (b <=? 223) then
        match r with
        | c :: r' => utf8_cont c && utf8_valid r'
        | _ => false
        end
      else if (224 <=? b) && (b <=? 239) then
        match r with
        | c1 :: c2 :: r' =>
            (if b =? 224 then (160 <=? c1) && (c1 <=? 191)
             else if b =? 237 then (128 <=? c1) && (c1 <=? 159)
             else utf8_cont c1)
            && utf8_cont c2 && utf8_valid r'
        | _ => false
        end
      else if (240 <=? b) && (b <=? 244) then
        match r with
        | c1 :: c2 :: c3 :: r' =>
            (if b =? 240 then (144 <=? c1) && (c1 <=? 191)
             else if b =? 244 then (128 <=? c1) && (c1 <=? 143)
             else utf8_cont c1)
            && utf8_cont c2 && utf8_cont c3 && utf8_valid r'
        | _ => false
        end
      else false
  end.

(** [int32] fields: encoded as [value as u64] (sign extension), decoded as
    [varint as i32] (the low 32 bits). *)
Definition i32_as_u64 (v : Z) : Z := Z.land v (Z.ones 64).

Definition u64_as_i32 (v : Z) : Z :=
  let x := Z.land v (Z.ones 32) in
  if x <? 2 ^ 31 then x else x - 2 ^ 32.

(** The [prost::Message] trait, as far as this client uses it. *)
Class Message (T : Type) := {
  encode_to_vec : T -> bytes;
  decode : bytes -> result T string
}.

(** [DecodeError]'s text; the individual descriptions are not modelled. *)
Definition decode_error : string := "failed to decode Protobuf message".

Definition decode_message {M} (default : M) (merge_field : M -> field -> option M)
    (buf : bytes) : result M string :=
  match parse_fields (List.length buf) buf with
  | None => Err decode_error
  | Some fs =>
      match merge_all merge_field default fs with
      | Some m => Ok m
      | None => Err decode_error
      end
  end.

(** ** The messages of crate::nexus_orchestrator

    They are generated by prost from the orchestrator's .proto file, which is
    not part of src/; the field numbers and types below are those of that
    schema ([string node_id = 1; NodeType node_type = 2; ...]). *)

Inductive NodeType := WebProver | CliProver.

(** [NodeType::CliProver as i32]: the enum discriminant. *)
Definition NodeType_as_i32 (t : NodeType) : Z :=
  match t with WebProver => 0 | CliProver => 1 end.

(** Field encoders for the proto3 scalar kinds used by the messages:
    implicit-presence fields are skipped at their default value; [optional]
    ones are written whenever present. *)
Definition string_field (tag : Z) (s : bytes) : list field :=
  if is_empty s then [] else [(tag, WLen s)].

Definition int32_field (tag : Z) (v : Z) : list field :=
  if v =? 0 then [] else [(tag, WVarint (i32_as_u64 v))].

Definition opt_int32_field (tag : Z) (o : option Z) : list field :=
  match o with Some v => [(tag, WVarint (i32_as_u64 v))] | None => [] end.

Definition opt_string_field (tag : Z) (o : option bytes) : list field :=
  match o with Some s => [(tag, WLen s)] | None => [] end.

Module NodeTelemetry.
Record t := mk {
  flops_per_sec : option Z;
  memory_used : option Z;
  memory_capacity : option Z;
  location : option bytes
}.

Definition default : t := mk None None None None.

Definition to_fields (m : t) : list field :=
  opt_int32_field 1 (flops_per_sec m) ++ opt_int32_field 2 (memory_used m)
  ++ opt_int32_field 3 (memory_capacity m) ++ opt_string_field 4 (location m).

(** Unknown tags are skipped; a known tag with another wire type, or a
    string that is not UTF-8, is a decode error. *)
Definition merge_field (m : t) (f : field) : option t :=
  let '(tag, w) := f in
  if tag =? 1 then
    match w with
    | WVarint v => Some (mk (Some (u64_as_i32 v)) (memory_used m) (memory_capacity m) (location m))
    | _ => None
    end
  else if tag =? 2 then
    match w with
    | WVarint v => Some (mk (flops_per_sec m) (Some (u64_as_i32 v)) (memory_capacity m) (location m))
    | _ => None
    end
  else if tag =? 3 then
    match w with
    | WVarint v => Some (mk (flops_per_sec m) (memory_used m) (Some (u64_as_i32 v)) (location m))
    | _ => None
    end
  else if tag =? 4 then
    match w with
    | WLen bs =>
        if utf8_valid bs
        then Some (mk (flops_per_sec m) (memory_used m) (memory_capacity m) (Some bs))
        else None
    | _ => None
    end
  else Some m.

(** Decoding an embedded message merges its fields into the value already
    there. *)
Definition merge_into (m : t) (buf : bytes) : option t :=
  match parse_fields (List.length buf) buf with
  | Some fs => merge_all merge_field m fs
  | None => None
  end.
End NodeTelemetry.

Module GetProofTaskRequest.
Record t := mk {
  node_id : bytes;
  node_type : Z
}.

Definition default : t := mk [] 0.

Definition to_fields (m : t) : list field :=
  string_field 1 (node_id m) ++ int32_field 2 (node_type m).

Definition merge_field (m : t) (f : field) : option t :=
  let '(tag, w) := f in
  if tag =? 1 then
    match w with
    | WLen bs => if utf8_valid bs then Some (mk bs (node_type m)) else None
    | _ => None
    end
  else if tag =? 2 then
    match w with
    | WVarint v => Some (mk (node_id m) (u64_as_i32 v))
    | _ => None
    end
  else Some m.
End GetProofTaskRequest.

Module SubmitProofRequest.
Record t := mk {
  node_id : bytes;
  node_type : Z;
  proof_hash : bytes;
  proof : bytes;
  node_telemetry : option NodeTelemetry.t
}.

Definition default : t := mk [] 0 [] [] None.

Definition to_fields (m : t) : list field :=
  string_field 1 (node_id m) ++ int32_field 2 (node_type m)
  ++ string_field 3 (proof_hash m)
  ++ (if is_empty (proof m) then [] else [(4, WLen (proof m))])
  ++ match node_telemetry m with
     | Some tel => [(5, WLen (encode_fields (NodeTelemetry.to_fields tel)))]
     | None => []
     end.

Definition merge_field (m : t) (f : field) : option t :=
  let '(tag, w) := f in
  let '(mk id ty h p tel) := m in
  if tag =? 1 then
    match w with
    | WLen bs => if utf8_valid bs then Some (mk bs ty h p tel) else None
    | _ => None
    end
  else if tag =? 2 then
    match w with
    | WVarint v => Some (mk id (u64_as_i32 v) h p tel)
    | _ => None
    end
  else if tag =? 3 then
    match w with
    | WLen bs => if utf8_valid bs then Some (mk id ty bs p tel) else None
    | _ => None
    end
  else if tag =? 4 then
    match w with
    | WLen bs => Some (mk id ty h bs tel)
    | _ => None
    end
  else if tag =? 5 then
    match w with
    | WLen bs =>
        let base := match tel with Some x => x | None => NodeTelemetry.default end in
        match NodeTelemetry.merge_into base bs with
        | Some tel' => Some (mk id ty h p (Some tel'))
        | None => None
        end
    | _ => None
    end
  else Some m.
End SubmitProofRequest.

#[export] Instance Message_NodeTelemetry : Message NodeTelemetry.t := {
  encode_to_vec m := encode_fields (NodeTelemetry.to_fields m);
  decode := decode_message NodeTelemetry.default NodeTelemetry.merge_field
}.

#[export] Instance Message_GetProofTaskRequest : Message GetProofTaskRequest.t := {
  encode_to_vec m := encode_fields (GetProofTaskRequest.to_fields m);
  decode := decode_message GetProofTaskRequest.default GetProofTaskRequest.merge_field
}.

#[export] Instance Message_SubmitProofRequest : Message SubmitProofRequest.t := {
  encode_to_vec m := encode_fields (SubmitProofRequest.to_fields m);
  decode := decode_message SubmitProofRequest.default SubmitProofRequest.merge_field
}.

(** prost's [impl Message for ()]: nothing to encode; decoding skips every
    field, so it fails only on malformed wire data. *)
#[export] Instance Message_unit : Message unit := {
  encode_to_vec _ := [];
  decode := decode_message tt (fun m _ => Some m)
}.

(** ** HTTP status (http::StatusCode) *)

(** [StatusCode::is_success]: 200..=299.  A status code is a [u16] in
    100..=999. *)
Definition is_success (status : Z) : bool := (200 <=? status) && (status <=? 299).

(** [StatusCode::canonical_reason]. *)
Definition canonical_reasons : list (Z * string) := [
  (100, "Continue"); (101, "Switching Protocols"); (102, "Processing");
  (200, "OK"); (201, "Created"); (202, "Accepted");
  (203, "Non Authoritative Information"); (204, "No Content");
  (205, "Reset Content"); (206, "Partial Content"); (207, "Multi-Status");
  (208, "Already Reported"); (226, "IM Used");
  (300, "Multiple Choices"); (301, "Moved Permanently"); (302, "Found");
  (303, "See Other"); (304, "Not Modified"); (305, "Use Proxy");
  (307, "Temporary Redirect"); (308, "Permanent Redirect");
  (400, "Bad Request"); (401, "Unauthorized"); (402, "Payment Required");
  (403, "Forbidden"); (404, "Not Found"); (405, "Method Not Allowed");
  (406, "Not Acceptable"); (407, "Proxy Authentication Required");
  (408, "Request Timeout"); (409, "Conflict"); (410, "Gone");
  (411, "Length Required"); (412, "Precondition Failed");
  (413, "Payload Too Large"); (414, "URI Too Long");
  (415, "Unsupported Media Type"); (416, "Range Not Satisfiable");
  (417, "Expectation Failed"); (418, "I'm a teapot");
  (421, "Misdirected Request"); (422, "Unprocessable Entity"); (423, "Locked");
  (424, "Failed Dependency"); (426, "Upgrade Required");
  (428, "Precondition Required"); (429, "Too Many Requests");
  (431, "Request Header Fields Too Large");
  (451, "Unavailable For Legal Reasons");
  (500, "Internal Server Error"); (501, "Not Implemented");
  (502, "Bad Gateway"); (503, "Service Unavailable"); (504, "Gateway Timeout");
  (505, "HTTP Version Not Supported"); (506, "Variant Also Negotiates");
  (507, "Insufficient Storage"); (508, "Loop Detected"); (510, "Not Extended");
  (511, "Network Authentication Required")].

Definition canonical_reason (status : Z) : option string :=
  match find (fun p => fst p =? status) canonical_reasons with
  | Some (_, r) => Some r
  | None => None
  end.

(** Decimal text of a non-negative integer ([u16]'s [Display]). *)
Fixpoint decimal_aux (fuel : nat) (n : Z) (acc : string) : string :=
  match fuel with
  | O => acc
  | S f =>
      let acc' := String (Ascii.ascii_of_nat (48 + Z.to_nat (n mod 10))) acc in
      if n <? 10 then acc' else decimal_aux f (n / 10) acc'
  end.

Definition decimal (n : Z) : string := decimal_aux 20 n EmptyString.

(** [impl Display for StatusCode]:
    [write!(f, "{} {}", u16::from(self),
            self.canonical_reason().unwrap_or("<unknown status code>"))] *)
Definition status_display (status : Z) : string :=
  (decimal status ++ " " ++
   match canonical_reason status with
   | Some r => r
   | None => "<unknown status code>"
   end)%string.

(** ** The float telemetry value *)

(** [flops as i32] for the [f32] returned by [measure_flops]: truncation
    toward zero, saturating at the [i32] bounds, NaN to 0. *)
Definition float_as_i32 (x : spec_float) : Z :=
  match x with
  | S754_zero _ | S754_nan => 0
  | S754_infinity s => if s then - 2 ^ 31 else 2 ^ 31 - 1
  | S754_finite s m e =>
      let a := if 0 <=? e then Z.pos m * 2 ^ e else Z.pos m / 2 ^ (- e) in
      Z.max (- 2 ^ 31) (Z.min (2 ^ 31 - 1) (if s then - a else a))
  end.

(** ** OrchestratorClient *)

(** The reqwest [Client] handle holds no state the model needs. *)
Record OrchestratorClient := { base_url : string }.

Definition content_type_header : list (string * string) :=
  [("Content-Type", "application/octet-stream")%string].

Definition verb_of_method (method : string) : option verb :=
  if String.eqb method "POST" then Some POST
  else if String.eqb method "GET" then Some GET
  else None.

(** [make_request::<T, U>] *)
Definition make_request {T U : Type} `{Message T} `{Message U}
    (self : OrchestratorClient) (url method : string) (request_data : T)
  : io (result (option U) string) :=
  let request_bytes := encode_to_vec request_data in
  let url := (base_url self ++ url)%string in
  match verb_of_method method with
  | None => Ret (Err "Unsupported HTTP method"%string)
  | Some v =>
      Send v url content_type_header request_bytes (fun response =>
        match response with
        | SendErr _ => Ret (Err "Failed to connect to orchestrator"%string)
        | SendOk status =>
            if negb (is_success status) then
              ReadText (fun text =>
                match text with
                | Err e => Ret (Err e)
                | Ok error_text =>
                    Ret (Err ("HTTP " ++ status_display status ++ ": " ++ error_text)%string)
                end)
            else
              ReadBytes (fun rb =>
                match rb with
                | Err e => Ret (Err e)
                | Ok response_bytes =>
                    if is_empty response_bytes then Ret (Ok None)
                    else
                      match decode response_bytes with
                      | Ok u => Ret (Ok (Some u))
                      | Err e => Ret (Err ("Protobuf decode error: " ++ e)%string)
                      end
                end)
        end)
  end.

(** [get_proof_task]; [GetProofTaskResponse] is opaque to the client, so the
    operation is stated for any response message type. *)
Definition get_proof_task {GetProofTaskResponse : Type} `{Message GetProofTaskResponse}
    (self : OrchestratorClient) (node_id : bytes)
  : io (result GetProofTaskResponse string) :=
  if is_empty node_id then Ret (Err "Invalid node ID"%string)
  else
    let request := GetProofTaskRequest.mk node_id (NodeType_as_i32 CliProver) in
    r <- @make_request _ GetProofTaskResponse _ _ self "/tasks" "POST" request ;;
    match r with
    | Err e => Ret (Err e)
    | Ok None => Ret (Err "Empty response from orchestrator"%string)
    | Ok (Some t) => Ret (Ok t)
    end.

Definition us_location : bytes := [85; 83].   (* "US" *)

Definition submitted_message : string :=
  String (Ascii.ascii_of_nat 9) "Nexus Orchestrator: Proof submitted successfully".

(** [submit_proof] *)
Definition submit_proof (self : OrchestratorClient) (node_id proof_hash proof : bytes)
  : io (result unit string) :=
  if is_empty proof then Ret (Err "Empty proof submitted"%string)
  else
    GetMemoryInfo (fun '(program_memory, total_memory) =>
    MeasureFlops (fun flops =>
      let request :=
        SubmitProofRequest.mk node_id (NodeType_as_i32 CliProver) proof_hash proof
          (Some (NodeTelemetry.mk (Some (float_as_i32 flops)) (Some program_memory)
                   (Some total_memory) (Some us_location))) in
      r <- @make_request _ unit _ _ self "/tasks/submit" "POST" request ;;
      match r with
      | Err e => Ret (Err e)
      | Ok _ => Println submitted_message (Ret (Ok tt))
      end)).


(** ** Rust type invariants of message contents

    A [String] holds UTF-8; no allocation exceeds [isize::MAX] bytes; an
    [i32] lies in its range. *)
Definition i32_range (v : Z) : Prop := - 2 ^ 31 <= v < 2 ^ 31.

Definition rust_vec (s : bytes) : Prop := Z.of_nat (List.length s) < 2 ^ 63.

Definition rust_string (s : bytes) : Prop := utf8_valid s = true /\ rust_vec s.

Definition opt_ok {A} (P : A -> Prop) (o : option A) : Prop :=
  match o with Some a => P a | None => True end.

Definition wf_telemetry (t : NodeTelemetry.t) : Prop :=
  opt_ok i32_range (NodeTelemetry.flops_per_sec t)
  /\ opt_ok i32_range (NodeTelemetry.memory_used t)
  /\ opt_ok i32_range (NodeTelemetry.memory_capacity t)
  /\ opt_ok rust_string (NodeTelemetry.location t).

Definition wf_get_proof_task_request (m : GetProofTaskRequest.t) : Prop :=
  rust_string (GetProofTaskRequest.node_id m)
  /\ i32_range (GetProofTaskRequest.node_type m).

Definition wf_submit_proof_request (m : SubmitProofRequest.t) : Prop :=
  rust_string (SubmitProofRequest.node_id m)
  /\ i32_range (SubmitProofRequest.node_type m)
  /\ rust_string (SubmitProofRequest.proof_hash m)
  /\ rust_vec (SubmitProofRequest.proof m)
  /\ opt_ok wf_telemetry (SubmitProofRequest.node_telemetry m).

(** The server answers every request the same way. *)
Definition answers (w : env) (r : send_result) : Prop :=
  forall v u h b, env_send w v u h b = r.

(** A method token that [make_request] accepts. *)
Definition supported (method : string) : Prop := method = "POST" \/ method = "GET".


(** A concrete client and world, for instances of the properties below. *)
Definition local_client : OrchestratorClient := {| base_url := "http://localhost:8080" |}.

Definition node_1 : bytes := [110; 111; 100; 101; 45; 49].   (* "node-1" *)

Definition mock_world (answer : send_result) (text : result string string)
    (body : result bytes string) : env := {|
  env_send := fun _ _ _ _ => answer;
  env_text := text;
  env_bytes := body;
  env_memory := (12, 16384);
  env_flops := S754_finite false 5 30
|}.

Definition sample_submission : SubmitProofRequest.t :=
  SubmitProofRequest.mk node_1 (NodeType_as_i32 CliProver) [104; 49] [1; 2; 3]
    (Some (NodeTelemetry.mk (Some (-5)) (Some 100) (Some 16384) (Some us_location))).

(** ** Round trip of the wire encoding *)

Lemma land_shiftl_disjoint (a x s : Z) :
  0 <= s -> 0 <= a < 2 ^ s -> Z.land a (x * 2 ^ s) = 0.
Proof.
  intros Hs Ha. apply Z.bits_inj'. intros n Hn.
  rewrite Z.land_spec, Z.bits_0.
  destruct (Z.lt_ge_cases n s) as [Hlt | Hge].
  - rewrite Z.mul_pow2_bits_low by lia. apply andb_false_r.
  - rewrite <- (Z.mod_small a (2 ^ s)) by lia.
    rewrite Z.mod_pow2_bits_high by lia. reflexivity.
Qed.

Lemma lor_shiftl_add (a x s : Z) :
  0 <= s -> 0 <= a < 2 ^ s -> Z.lor a (Z.shiftl x s) = a + x * 2 ^ s.
Proof.
  intros Hs Ha. rewrite Z.shiftl_mul_pow2 by lia.
  rewrite <- Z.lxor_lor, <- Z.add_nocarry_lxor by (apply land_shiftl_disjoint; lia).
  reflexivity.
Qed.

Lemma land_127 (v : Z) : Z.land v 127 = v mod 128.
Proof. change 127 with (Z.ones 7). rewrite Z.land_ones by lia. reflexivity. Qed.

Lemma varint_byte (v : Z) :
  0 <= v -> Z.lor (Z.land v 127) 128 = v mod 128 + 128.
Proof.
  intros Hv. rewrite land_127. change 128 with (Z.shiftl 1 7) at 2.
  rewrite lor_shiftl_add; [reflexivity | lia |].
  pose proof (Z.mod_pos_bound v 128). change (2 ^ 7) with 128. lia.
Qed.

Lemma decode_encode_varint_aux (k : nat) :
  (1 <= k <= 10)%nat ->
  forall shift acc v rest,
    shift = 7 * Z.of_nat (10 - k) -> 0 <= acc < 2 ^ shift -> 0 <= v ->
    v * 2 ^ shift < 2 ^ 64 ->
    decode_varint_aux k shift acc (encode_varint_aux k v ++ rest)
    = Some (acc + v * 2 ^ shift, rest).
Proof.
  induction k as [|k IH]; intros Hk shift acc v rest Hsh Hacc Hv Hbound; [lia|].
  assert (Hs0 : 0 <= shift) by lia.
  cbn [encode_varint_aux].
  destruct (Z.ltb_spec v 128) as [Hsmall | Hbig].
  - cbn [app decode_varint_aux].
    replace (v <=? 127) with true by (symmetry; apply Z.leb_le; lia).
    replace ((shift =? 63) && (2 <=? v)) with false.
    + rewrite land_127, Z.mod_small by lia.
      rewrite lor_shiftl_add by lia. reflexivity.
    + destruct (Z.eqb_spec shift 63) as [H63 | H63]; [|reflexivity].
      rewrite H63 in Hbound. symmetry. apply Z.leb_gt.
      assert (v * 2 ^ 63 < 2 * 2 ^ 63) by (change (2 * 2 ^ 63) with (2 ^ 64); lia).
      nia.
  - cbn [app decode_varint_aux].
    rewrite varint_byte by lia.
    pose proof (Z.mod_pos_bound v 128) as Hm.
    replace (v mod 128 + 128 <=? 127) with false by (symmetry; apply Z.leb_gt; lia).
    destruct k as [|k'].
    + exfalso. assert (H63 : shift = 63) by lia. rewrite H63 in Hbound.
      assert (128 * 2 ^ 63 <= v * 2 ^ 63) by nia.
      change (128 * 2 ^ 63) with (2 ^ 70) in *.
      assert (2 ^ 64 < 2 ^ 70) by (apply Z.pow_lt_mono_r; lia). lia.
    + rewrite Z.shiftr_div_pow2 by lia. change (2 ^ 7) with 128.
      assert (Hlow : Z.land (v mod 128 + 128) 127 = v mod 128).
      { rewrite land_127.
        replace (v mod 128 + 128) with (v mod 128 + 1 * 128) by lia.
        rewrite Z.mod_add, Z.mod_mod by lia. reflexivity. }
      rewrite Hlow.
      rewrite lor_shiftl_add by lia.
      assert (Hp : 2 ^ (shift + 7) = 2 ^ shift * 128)
        by (rewrite Z.pow_add_r by lia; reflexivity).
      pose proof (Z.div_mod v 128) as Hdm.
      pose proof (Z.div_pos v 128).
      rewrite IH; [| lia | lia | | | ].
      * f_equal. f_equal. rewrite Hp. nia.
      * split; [nia|]. rewrite Hp. nia.
      * apply Z.div_pos; lia.
      * rewrite Hp. nia.
Qed.

(** A field the encoder can write and the parser read back: tag in
    [1, 2^29), a [u64] varint, a length that fits a varint. *)
Definition wf_field (f : field) : Prop :=
  let '(tag, w) := f in
  1 <= tag < 2 ^ 29
  /\ match w with
     | WVarint v => 0 <= v < 2 ^ 64
     | WLen bs => Z.of_nat (List.length bs) < 2 ^ 64
     | _ => False
     end.

Lemma decode_encode_varint (v : Z) (rest : bytes) :
  0 <= v < 2 ^ 64 -> decode_varint (encode_varint v ++ rest) = Some (v, rest).
Proof.
  intros Hv. unfold decode_varint, encode_varint.
  rewrite decode_encode_varint_aux; [f_equal; f_equal; lia | lia | reflexivity | lia | lia | lia].
Qed.

Lemma encode_varint_aux_length (k : nat) (v : Z) :
  (1 <= List.length (encode_varint_aux k v) <= S k)%nat.
Proof.
  revert v. induction k as [|k IH]; intros v; simpl; [lia|].
  destruct (v <? 128); simpl; [lia|]. specialize (IH (Z.shiftr v 7)). lia.
Qed.

Lemma encode_varint_cons (v : Z) : exists b bs, encode_varint v = b :: bs.
Proof.
  pose proof (encode_varint_aux_length 10 v) as H. unfold encode_varint.
  destruct (encode_varint_aux 10 v) as [|b bs]; simpl in H; [lia|]. eauto.
Qed.

Lemma key_decode (tag wire_type : Z) :
  1 <= tag < 2 ^ 29 -> 0 <= wire_type < 8 ->
  let key := Z.lor (Z.shiftl tag 3) wire_type in
  0 <= key < 2 ^ 64 /\ (2 ^ 32 - 1 <? key) = false
  /\ Z.land key 7 = wire_type /\ Z.shiftr key 3 = tag.
Proof.
  intros Ht Hw key.
  assert (Hk : key = wire_type + tag * 8).
  { unfold key. rewrite Z.lor_comm, lor_shiftl_add; [reflexivity | lia | simpl; lia]. }
  rewrite Hk. split; [lia|]. split; [apply Z.ltb_ge; lia|]. split.
  - change 7 with (Z.ones 3). rewrite Z.land_ones by lia.
    rewrite Z.mod_add, Z.mod_small by (simpl; lia). reflexivity.
  - rewrite Z.shiftr_div_pow2 by lia. change (2 ^ 3) with 8.
    rewrite Z.div_add, Z.div_small by lia. reflexivity.
Qed.

Lemma parse_field_encode (f : field) (rest : bytes) :
  wf_field f -> parse_field (encode_field f ++ rest) = Some (f, rest).
Proof.
  destruct f as [tag w]. intros [Ht Hw].
  destruct w as [v | bs | bs | bs]; try contradiction; unfold encode_field, encode_key.
  - destruct (key_decode tag 0 Ht ltac:(lia)) as (Hk1 & Hk2 & Hk3 & Hk4).
    rewrite <- app_assoc. unfold parse_field.
    rewrite decode_encode_varint by exact Hk1.
    rewrite Hk2, Hk3, Hk4.
    replace (tag <? 1) with false by (symmetry; apply Z.ltb_ge; lia).
    simpl. rewrite decode_encode_varint by exact Hw. reflexivity.
  - destruct (key_decode tag 2 Ht ltac:(lia)) as (Hk1 & Hk2 & Hk3 & Hk4).
    rewrite <- !app_assoc. unfold parse_field.
    rewrite decode_encode_varint by exact Hk1.
    rewrite Hk2, Hk3, Hk4.
    replace (tag <? 1) with false by (symmetry; apply Z.ltb_ge; lia).
    simpl. rewrite decode_encode_varint by lia.
    rewrite length_app.
    replace (Z.of_nat (List.length bs + List.length rest) <? Z.of_nat (List.length bs))
      with false by (symmetry; apply Z.ltb_ge; lia).
    rewrite Nat2Z.id, firstn_app, skipn_app, Nat.sub_diag, firstn_all, skipn_all.
    simpl. rewrite app_nil_r. reflexivity.
Qed.

Lemma encode_field_cons (f : field) : exists b bs, encode_field f = b :: bs.
Proof.
  destruct f as [tag w]. unfold encode_field, encode_key.
  destruct (encode_varint_cons (Z.lor (Z.shiftl tag 3)
    (match w with WVarint _ => 0 | WLen _ => 2 | WFixed64 _ => 1 | WFixed32 _ => 5 end)))
    as (b & bs & Hb).
  destruct w; rewrite Hb; simpl; eauto.
Qed.

Lemma length_encode_fields (fs : list field) :
  (List.length fs <= List.length (encode_fields fs))%nat.
Proof.
  induction fs as [|f fs IH]; simpl; [lia|].
  destruct (encode_field_cons f) as (b & bs & Hb). rewrite length_app, Hb. simpl. lia.
Qed.

Lemma parse_fields_encode (fs : list field) (fuel : nat) :
  Forall wf_field fs -> (List.length fs <= fuel)%nat ->
  parse_fields fuel (encode_fields fs) = Some fs.
Proof.
  revert fuel. induction fs as [|f fs IH]; intros fuel Hwf Hlen; [destruct fuel; reflexivity|].
  inversion Hwf as [|? ? Hf Hfs]; subst.
  destruct fuel as [|fuel]; simpl in Hlen; [lia|].
  simpl encode_fields.
  destruct (encode_field_cons f) as (b & bs & Hb).
  pose proof (parse_field_encode f (encode_fields fs) Hf) as Hp.
  rewrite Hb in *. simpl app in *. cbn [parse_fields].
  rewrite Hp, IH by (auto; lia). reflexivity.
Qed.

Lemma merge_all_app {M} (merge : M -> field -> option M) (m : M) (l1 l2 : list field) :
  merge_all merge m (l1 ++ l2)
  = match merge_all merge m l1 with Some m' => merge_all merge m' l2 | None => None end.
Proof.
  revert m. induction l1 as [|f l1 IH]; intros m; simpl; [reflexivity|].
  destruct (merge m f); [apply IH | reflexivity].
Qed.

Lemma decode_message_encode {M} (default m : M) (merge : M -> field -> option M)
    (fs : list field) :
  Forall wf_field fs -> merge_all merge default fs = Some m ->
  decode_message default merge (encode_fields fs) = Ok m.
Proof.
  intros Hwf Hm. unfold decode_message.
  rewrite parse_fields_encode by (auto; apply length_encode_fields).
  rewrite Hm. reflexivity.
Qed.

Lemma merge_into_encode (base : NodeTelemetry.t) (fs : list field) :
  Forall wf_field fs ->
  NodeTelemetry.merge_into base (encode_fields fs)
  = merge_all NodeTelemetry.merge_field base fs.
Proof.
  intros Hwf. unfold NodeTelemetry.merge_into.
  rewrite parse_fields_encode by (auto; apply length_encode_fields). reflexivity.
Qed.

Lemma i32_as_u64_range (v : Z) : 0 <= i32_as_u64 v < 2 ^ 64.
Proof. unfold i32_as_u64. rewrite Z.land_ones by lia. apply Z.mod_pos_bound. lia. Qed.

Lemma i32_roundtrip (v : Z) : i32_range v -> u64_as_i32 (i32_as_u64 v) = v.
Proof.
  unfold i32_range, u64_as_i32, i32_as_u64. intros Hv.
  rewrite !Z.land_ones by lia.
  rewrite Z.mod_mod_divide by (exists (2 ^ 32); reflexivity).
  pose proof (Z.div_mod v (2 ^ 32) ltac:(lia)) as Hdm.
  pose proof (Z.mod_pos_bound v (2 ^ 32) ltac:(lia)) as Hb.
  change (2 ^ 32) with 4294967296 in *. change (2 ^ 31) with 2147483648 in *.
  set (q := v / 4294967296) in *. set (r := v mod 4294967296) in *.
  destruct (Z.ltb_spec r 2147483648); lia.
Qed.

Lemma encode_varint_length (v : Z) : (List.length (encode_varint v) <= 11)%nat.
Proof. pose proof (encode_varint_aux_length 10 v). unfold encode_varint. lia. Qed.

Lemma encode_fields_app (l1 l2 : list field) :
  encode_fields (l1 ++ l2) = encode_fields l1 ++ encode_fields l2.
Proof. unfold encode_fields. apply flat_map_app. Qed.

(** Well-formed fields of each field kind. *)
Lemma wf_string_field (tag : Z) (s : bytes) :
  1 <= tag < 2 ^ 29 -> rust_vec s -> Forall wf_field (string_field tag s).
Proof.
  unfold string_field, rust_vec. intros Ht Hs.
  destruct s; simpl; repeat constructor; simpl in *; lia.
Qed.

Lemma wf_int32_field (tag v : Z) :
  1 <= tag < 2 ^ 29 -> Forall wf_field (int32_field tag v).
Proof.
  unfold int32_field. intros Ht. pose proof (i32_as_u64_range v).
  destruct (v =? 0); repeat constructor; lia.
Qed.

Lemma wf_opt_int32_field (tag : Z) (o : option Z) :
  1 <= tag < 2 ^ 29 -> Forall wf_field (opt_int32_field tag o).
Proof.
  unfold opt_int32_field. intros Ht.
  destruct o as [v|]; repeat constructor; try lia; apply i32_as_u64_range.
Qed.

Lemma wf_opt_string_field (tag : Z) (o : option bytes) :
  1 <= tag < 2 ^ 29 -> opt_ok rust_string o -> Forall wf_field (opt_string_field tag o).
Proof.
  unfold opt_string_field, rust_string, rust_vec. intros Ht Ho.
  destruct o as [s|]; simpl in *; repeat constructor; lia.
Qed.

Lemma wf_telemetry_fields (t : NodeTelemetry.t) :
  wf_telemetry t -> Forall wf_field (NodeTelemetry.to_fields t).
Proof.
  intros (_ & _ & _ & Hl). unfold NodeTelemetry.to_fields.
  apply Forall_app; split; [apply wf_opt_int32_field; lia|].
  apply Forall_app; split; [apply wf_opt_int32_field; lia|].
  apply Forall_app; split; [apply wf_opt_int32_field; lia|].
  apply wf_opt_string_field; [lia | exact Hl].
Qed.

Lemma telemetry_encoding_length (t : NodeTelemetry.t) :
  wf_telemetry t ->
  Z.of_nat (List.length (encode_fields (NodeTelemetry.to_fields t))) < 2 ^ 64.
Proof.
  intros (_ & _ & _ & Hl). destruct t as [f m c l]. unfold NodeTelemetry.to_fields.
  cbn [NodeTelemetry.flops_per_sec NodeTelemetry.memory_used
       NodeTelemetry.memory_capacity NodeTelemetry.location] in *.
  rewrite !encode_fields_app, !length_app.
  assert (Hi : forall tag o, (List.length (encode_fields (opt_int32_field tag o)) <= 22)%nat).
  { intros tag [v|]; simpl; [|lia]. rewrite app_nil_r, length_app. unfold encode_key.
    pose proof (encode_varint_length (Z.lor (Z.shiftl tag 3) 0)).
    pose proof (encode_varint_length (i32_as_u64 v)). lia. }
  assert (Hs : Z.of_nat (List.length (encode_fields (opt_string_field 4 l))) < 2 ^ 63 + 22).
  { destruct l as [s|]; simpl; [|lia]. destruct Hl as [_ Hl]. unfold rust_vec in Hl.
    rewrite app_nil_r, !length_app. unfold encode_key.
    pose proof (encode_varint_length (Z.lor (Z.shiftl 4 3) 2)).
    pose proof (encode_varint_length (Z.of_nat (List.length s))). lia. }
  pose proof (Hi 1 f). pose proof (Hi 2 m). pose proof (Hi 3 c). lia.
Qed.

(** Decoding the fields of a message, one kind of field at a time. *)
Lemma merge_telemetry (t : NodeTelemetry.t) :
  wf_telemetry t ->
  merge_all NodeTelemetry.merge_field NodeTelemetry.default (NodeTelemetry.to_fields t)
  = Some t.
Proof.
  destruct t as [f m c l]. intros (Hf & Hm & Hc & Hl).
  unfold NodeTelemetry.to_fields, NodeTelemetry.default.
  cbn [NodeTelemetry.flops_per_sec NodeTelemetry.memory_used
       NodeTelemetry.memory_capacity NodeTelemetry.location] in *.
  rewrite !merge_all_app.
  destruct f as [f|]; simpl in Hf |- *; [rewrite (i32_roundtrip f Hf)|];
  (destruct m as [m|]; simpl in Hm |- *; [rewrite (i32_roundtrip m Hm)|]);
  (destruct c as [c|]; simpl in Hc |- *; [rewrite (i32_roundtrip c Hc)|]);
  (destruct l as [l|]; simpl in Hl |- *; [destruct Hl as [Hu _]; rewrite Hu|]);
  reflexivity.
Qed.

Lemma merge_get_proof_task_request (m : GetProofTaskRequest.t) :
  wf_get_proof_task_request m ->
  merge_all GetProofTaskRequest.merge_field GetProofTaskRequest.default
    (GetProofTaskRequest.to_fields m) = Some m.
Proof.
  destruct m as [id ty]. intros [[Hu _] Hr].
  unfold GetProofTaskRequest.to_fields, GetProofTaskRequest.default.
  cbn [GetProofTaskRequest.node_id GetProofTaskRequest.node_type] in *.
  rewrite merge_all_app.
  destruct id as [|c cs]; cbn -[utf8_valid]; [|rewrite Hu]; unfold int32_field;
    (destruct (Z.eqb_spec ty 0) as [-> | _]; simpl; [reflexivity|]);
    rewrite (i32_roundtrip ty Hr); reflexivity.
Qed.

Lemma merge_submit_proof_request (m : SubmitProofRequest.t) :
  wf_submit_proof_request m ->
  merge_all SubmitProofRequest.merge_field SubmitProofRequest.default
    (SubmitProofRequest.to_fields m) = Some m.
Proof.
  destruct m as [id ty h p tel]. intros ([Hu _] & Hr & [Hh _] & _ & Ht).
  unfold SubmitProofRequest.to_fields, SubmitProofRequest.default.
  cbn [SubmitProofRequest.node_id SubmitProofRequest.node_type
       SubmitProofRequest.proof_hash SubmitProofRequest.proof
       SubmitProofRequest.node_telemetry] in *.
  assert (E1 : merge_all SubmitProofRequest.merge_field (SubmitProofRequest.mk [] 0 [] [] None)
                 (string_field 1 id) = Some (SubmitProofRequest.mk id 0 [] [] None))
    by (destruct id; cbn -[utf8_valid]; [|rewrite Hu]; reflexivity).
  assert (E2 : merge_all SubmitProofRequest.merge_field (SubmitProofRequest.mk id 0 [] [] None)
                 (int32_field 2 ty) = Some (SubmitProofRequest.mk id ty [] [] None)).
  { unfold int32_field. destruct (Z.eqb_spec ty 0) as [-> | _]; [reflexivity|].
    simpl. rewrite (i32_roundtrip ty Hr). reflexivity. }
  assert (E3 : merge_all SubmitProofRequest.merge_field (SubmitProofRequest.mk id ty [] [] None)
                 (string_field 3 h) = Some (SubmitProofRequest.mk id ty h [] None))
    by (destruct h; cbn -[utf8_valid]; [|rewrite Hh]; reflexivity).
  rewrite merge_all_app, E1. cbv beta iota.
  rewrite merge_all_app, E2. cbv beta iota.
  rewrite merge_all_app, E3. cbv beta iota.
  destruct tel as [t|]; simpl in Ht; destruct p as [|b bs];
    cbn -[utf8_valid encode_fields NodeTelemetry.to_fields NodeTelemetry.merge_into];
    try reflexivity;
    rewrite merge_into_encode by (apply wf_telemetry_fields; exact Ht);
    first [ rewrite (merge_telemetry t Ht)
          | pose proof (merge_telemetry t Ht) as Hm;
            unfold NodeTelemetry.default in Hm; rewrite Hm ];
    reflexivity.
Qed.

Lemma wf_get_proof_task_request_fields (m : GetProofTaskRequest.t) :
  wf_get_proof_task_request m -> Forall wf_field (GetProofTaskRequest.to_fields m).
Proof.
  intros [[_ Hv] _]. unfold GetProofTaskRequest.to_fields.
  apply Forall_app; split; [apply wf_string_field; [lia | exact Hv] | apply wf_int32_field; lia].
Qed.

Lemma wf_submit_proof_request_fields (m : SubmitProofRequest.t) :
  wf_submit_proof_request m -> Forall wf_field (SubmitProofRequest.to_fields m).
Proof.
  intros ([_ Hv] & _ & [_ Hh] & Hp & Ht). unfold SubmitProofRequest.to_fields.
  apply Forall_app; split; [apply wf_string_field; [lia | exact Hv]|].
  apply Forall_app; split; [apply wf_int32_field; lia|].
  apply Forall_app; split; [apply wf_string_field; [lia | exact Hh]|].
  apply Forall_app; split.
  - unfold rust_vec in Hp. destruct (is_empty (SubmitProofRequest.proof m)); repeat constructor; lia.
  - destruct (SubmitProofRequest.node_telemetry m) as [t|]; [|constructor].
    pose proof (telemetry_encoding_length t Ht). repeat constructor; lia.
Qed.

(** ** Properties of the transport client *)

Lemma string_app_assoc (a b c : string) : ((a ++ b) ++ c)%string = (a ++ (b ++ c))%string.
Proof. induction a as [|x a IH]; simpl; [reflexivity | now rewrite IH]. Qed.

Section Transport.

Context {T U : Type} `{MT : Message T} `{MU : Message U}.

Ltac send_step H :=
  match goal with
  | |- context [env_send ?w ?v ?u ?h ?b] => rewrite (H v u h b)
  end.

(** C1: a 2xx answer with an empty body is the absence [Ok None] for the
    primitive, an "Empty response from orchestrator" failure for
    [get_proof_task], and overall success for [submit_proof]. *)
Theorem empty_body_outcomes (self : OrchestratorClient) (w : env) (status : Z)
    (url method : string) (req : T) (node_id node_id' proof_hash proof : bytes) :
  answers w (SendOk status) -> is_success status = true -> env_bytes w = Ok [] ->
  supported method -> node_id <> [] -> proof <> [] ->
  snd (run w (@make_request T U _ _ self url method req)) = Ok None
  /\ snd (run w (@get_proof_task U _ self node_id))
       = Err "Empty response from orchestrator"
  /\ snd (run w (submit_proof self node_id' proof_hash proof)) = Ok tt.
Proof.
  intros Hs Hok Hb Hm Hid Hp.
  repeat split.
  - unfold make_request.
    destruct Hm as [-> | ->]; simpl; send_step Hs; simpl; rewrite Hok; simpl; rewrite Hb; reflexivity.
  - destruct node_id as [|c cs]; [congruence|].
    simpl. send_step Hs; simpl; rewrite Hok; simpl; rewrite Hb; reflexivity.
  - destruct proof as [|c cs]; [congruence|].
    simpl. destruct (env_memory w) as [pm tm]; simpl.
    send_step Hs; simpl; rewrite Hok; simpl; rewrite Hb; reflexivity.
Qed.

(** C2: an empty worker identifier makes [get_proof_task] fail with the
    validation error at once: no I/O event at all, whatever the world. *)
Theorem get_proof_task_empty_id (self : OrchestratorClient) (w : env) :
  run w (@get_proof_task U _ self []) = ([], Err "Invalid node ID").
Proof. reflexivity. Qed.

(** C3: empty result bytes make [submit_proof] fail at once: no network
    call and no call of the memory or throughput collaborators. *)
Theorem submit_proof_empty_proof (self : OrchestratorClient)
    (node_id proof_hash : bytes) (w : env) :
  run w (submit_proof self node_id proof_hash []) = ([], Err "Empty proof submitted").
Proof. reflexivity. Qed.

(** C4 (the code does not do it): [submit_proof] does not check the worker
    identifier; with an empty one and a non-empty proof it gathers telemetry
    and sends the request. *)
Theorem submit_proof_empty_node_id_sends (self : OrchestratorClient)
    (proof_hash proof : bytes) (w : env) :
  proof <> [] ->
  existsb is_send (fst (run w (submit_proof self [] proof_hash proof))) = true.
Proof.
  intros Hp. destruct proof as [|c cs]; [congruence|].
  simpl. destruct (env_memory w) as [pm tm]. simpl.
  match goal with |- context [run w ?m] => destruct (run w m) end.
  reflexivity.
Qed.

(** C5, as the code has it: a non-2xx answer whose body is read as [text]
    fails with "HTTP <code> <reason>: <text>", after reading the text and
    without reading the body bytes (so without decoding); if reading the
    body fails, that read error is returned instead. *)
Theorem status_failure_carries_code_and_text (self : OrchestratorClient)
    (url method : string) (req : T) (w : env) (status : Z) :
  answers w (SendOk status) -> is_success status = false -> supported method ->
  (forall text, env_text w = Ok text ->
     exists v reason,
       run w (@make_request T U _ _ self url method req)
       = ([EvSend v (base_url self ++ url) content_type_header (encode_to_vec req); EvText],
          Err ("HTTP " ++ decimal status ++ " " ++ reason ++ ": " ++ text)%string))
  /\ (forall e, env_text w = Err e ->
        snd (run w (@make_request T U _ _ self url method req)) = Err e).
Proof.
  intros Hs Hok Hm. split.
  - intros text Ht.
    destruct Hm as [-> | ->]; [exists POST | exists GET];
      exists (match canonical_reason status with
              | Some r => r
              | None => "<unknown status code>"
              end);
      simpl; send_step Hs; simpl; rewrite Hok; simpl; rewrite Ht;
      unfold status_display; rewrite !string_app_assoc; reflexivity.
  - intros e Ht.
    destruct Hm as [-> | ->]; simpl; send_step Hs; simpl; rewrite Hok; simpl;
      rewrite Ht; reflexivity.
Qed.

(** C6: a method token other than "POST" and "GET" fails with
    "Unsupported HTTP method" before any I/O. *)
Theorem unsupported_method_no_io (self : OrchestratorClient) (url method : string)
    (req : T) (w : env) :
  method <> "POST" -> method <> "GET" ->
  run w (@make_request T U _ _ self url method req) = ([], Err "Unsupported HTTP method").
Proof.
  intros H1 H2. unfold make_request, verb_of_method.
  destruct (String.eqb_spec method "POST"); [contradiction|].
  destruct (String.eqb_spec method "GET"); [contradiction|].
  reflexivity.
Qed.

(** C7: when the call cannot complete, the error is the fixed text
    "Failed to connect to orchestrator", whatever the transport's diagnostic. *)
Theorem connect_failure_fixed_message (self : OrchestratorClient)
    (url method : string) (req : T) (w : env) :
  (forall v u h b, exists diag, env_send w v u h b = SendErr diag) ->
  supported method ->
  snd (run w (@make_request T U _ _ self url method req))
  = Err "Failed to connect to orchestrator".
Proof.
  intros Hs Hm.
  destruct Hm as [-> | ->]; simpl;
    match goal with
    | |- context [env_send w ?v ?u ?h ?b] =>
        destruct (Hs v u h b) as [d Hd]; rewrite Hd
    end; reflexivity.
Qed.

(** C8: a non-empty 2xx body that does not decode gives the error value
    "Protobuf decode error: <diagnostic>". *)
Theorem decode_failure_reported (self : OrchestratorClient) (url method : string)
    (req : T) (w : env) (status : Z) (body : bytes) (e : string) :
  answers w (SendOk status) -> is_success status = true -> env_bytes w = Ok body ->
  body <> [] -> @decode U _ body = Err e -> supported method ->
  snd (run w (@make_request T U _ _ self url method req))
  = Err ("Protobuf decode error: " ++ e)%string.
Proof.
  intros Hs Hok Hb Hne Hd Hm.
  destruct body as [|c cs]; [congruence|].
  destruct Hm as [-> | ->]; simpl; send_step Hs; simpl; rewrite Hok; simpl;
    rewrite Hb; simpl; rewrite Hd; reflexivity.
Qed.

(** C10: the request [submit_proof] encodes and sends carries a telemetry
    snapshot with all four fields present: [flops as i32], the two measured
    memory values and the location "US". *)
Theorem submit_proof_telemetry (self : OrchestratorClient)
    (node_id proof_hash proof : bytes) (w : env) :
  proof <> [] ->
  exists rest,
    fst (run w (submit_proof self node_id proof_hash proof))
    = EvMemory :: EvFlops
      :: EvSend POST (base_url self ++ "/tasks/submit") content_type_header
           (encode_to_vec
              (SubmitProofRequest.mk node_id (NodeType_as_i32 CliProver) proof_hash proof
                 (Some (NodeTelemetry.mk (Some (float_as_i32 (env_flops w)))
                          (Some (fst (env_memory w))) (Some (snd (env_memory w)))
                          (Some [85; 83])))))
      :: rest.
Proof.
  intros Hp. destruct proof as [|c cs]; [congruence|].
  simpl. destruct (env_memory w) as [pm tm]. simpl.
  match goal with |- context [run w ?m] => destruct (run w m) as [t a] end.
  exists t. reflexivity.
Qed.

End Transport.

(** C9: every request message of the client, with contents its Rust types
    allow, decodes back from its encoding to an equal value. *)
Theorem request_roundtrip (m1 : GetProofTaskRequest.t) (m2 : SubmitProofRequest.t) :
  wf_get_proof_task_request m1 -> wf_submit_proof_request m2 ->
  decode (encode_to_vec m1) = Ok m1 /\ decode (encode_to_vec m2) = Ok m2.
Proof.
  intros H1 H2. split; simpl; apply decode_message_encode.
  - apply wf_get_proof_task_request_fields. exact H1.
  - apply merge_get_proof_task_request. exact H1.
  - apply wf_submit_proof_request_fields. exact H2.
  - apply merge_submit_proof_request. exact H2.
Qed.

(** C5 as stated fails: a 503 answer whose body cannot be read gives the
    read error, which carries no status code. *)
Lemma status_error_body_unreadable :
  snd (run (mock_world (SendOk 503) (Err "error decoding response body") (Ok []))
         (@make_request GetProofTaskRequest.t unit _ _ local_client "/tasks" "POST"
            (GetProofTaskRequest.mk node_1 1)))
  = Err "error decoding response body"
  /\ String.index 0 "503" "error decoding response body" = None.
Proof. split; reflexivity. Qed.

(** ** Instances of the properties at concrete inputs *)

Lemma empty_body_outcomes_witness :
  let w := mock_world (SendOk 200) (Ok "") (Ok []) in
  snd (run w (@make_request GetProofTaskRequest.t unit _ _ local_client "/tasks" "POST"
                (GetProofTaskRequest.mk node_1 1))) = Ok None
  /\ snd (run w (@get_proof_task unit _ local_client node_1))
       = Err "Empty response from orchestrator"
  /\ snd (run w (submit_proof local_client node_1 [104] [1; 2; 3])) = Ok tt.
Proof.
  apply (empty_body_outcomes (T := GetProofTaskRequest.t) (U := unit) local_client _ 200).
  - intros v u h b. reflexivity.
  - reflexivity.
  - reflexivity.
  - left. reflexivity.
  - discriminate.
  - discriminate.
Defined.

Lemma submit_proof_empty_node_id_sends_witness :
  existsb is_send (fst (run (mock_world (SendOk 200) (Ok "") (Ok []))
                          (submit_proof local_client [] [104] [1; 2; 3]))) = true.
Proof. apply submit_proof_empty_node_id_sends. discriminate. Defined.

Lemma status_failure_carries_code_and_text_witness :
  exists v reason,
    run (mock_world (SendOk 503) (Ok "overloaded") (Ok []))
      (@make_request GetProofTaskRequest.t unit _ _ local_client "/tasks" "POST"
         (GetProofTaskRequest.mk node_1 1))
    = ([EvSend v (base_url local_client ++ "/tasks") content_type_header
          (encode_to_vec (GetProofTaskRequest.mk node_1 1)); EvText],
       Err ("HTTP " ++ decimal 503 ++ " " ++ reason ++ ": " ++ "overloaded")%string).
Proof.
  apply (status_failure_carries_code_and_text (U := unit) local_client "/tasks" "POST"
           (GetProofTaskRequest.mk node_1 1) (mock_world (SendOk 503) (Ok "overloaded") (Ok [])) 503).
  - intros v u h b. reflexivity.
  - reflexivity.
  - left. reflexivity.
  - reflexivity.
Defined.

Lemma unsupported_method_no_io_witness :
  run (mock_world (SendOk 200) (Ok "") (Ok []))
    (@make_request GetProofTaskRequest.t unit _ _ local_client "/tasks" "PUT"
       (GetProofTaskRequest.mk node_1 1))
  = ([], Err "Unsupported HTTP method").
Proof. apply unsupported_method_no_io; discriminate. Defined.

Lemma connect_failure_fixed_message_witness :
  snd (run (mock_world (SendErr "error trying to connect: tcp connect error") (Ok "") (Ok []))
         (@make_request GetProofTaskRequest.t unit _ _ local_client "/tasks" "POST"
            (GetProofTaskRequest.mk node_1 1)))
  = Err "Failed to connect to orchestrator".
Proof.
  apply connect_failure_fixed_message.
  - intros v u h b. eexists. reflexivity.
  - left. reflexivity.
Defined.

(** A length-delimited field announcing five bytes and holding one. *)
Lemma decode_failure_reported_witness :
  snd (run (mock_world (SendOk 200) (Ok "") (Ok [10; 5; 110]))
         (@make_request GetProofTaskRequest.t unit _ _ local_client "/tasks" "POST"
            (GetProofTaskRequest.mk node_1 1)))
  = Err ("Protobuf decode error: " ++ decode_error)%string.
Proof.
  apply (decode_failure_reported (U := unit) local_client "/tasks" "POST" _ _ 200 [10; 5; 110]).
  - intros v u h b. reflexivity.
  - reflexivity.
  - reflexivity.
  - discriminate.
  - reflexivity.
  - left. reflexivity.
Defined.

Lemma request_roundtrip_witness :
  decode (encode_to_vec (GetProofTaskRequest.mk node_1 1)) = Ok (GetProofTaskRequest.mk node_1 1)
  /\ decode (encode_to_vec sample_submission) = Ok sample_submission.
Proof.
  apply request_roundtrip.
  - unfold wf_get_proof_task_request, rust_string, rust_vec, i32_range. simpl.
    split; [split; [reflexivity | lia] | lia].
  - unfold wf_submit_proof_request, wf_telemetry, rust_string, rust_vec, i32_range. simpl.
    repeat split; try reflexivity; lia.
Defined.

Lemma submit_proof_telemetry_witness :
  exists rest,
    fst (run (mock_world (SendOk 200) (Ok "") (Ok []))
           (submit_proof local_client node_1 [104] [1; 2; 3]))
    = EvMemory :: EvFlops
      :: EvSend POST (base_url local_client ++ "/tasks/submit") content_type_header
           (encode_to_vec
              (SubmitProofRequest.mk node_1 (NodeType_as_i32 CliProver) [104] [1; 2; 3]
                 (Some (NodeTelemetry.mk (Some (float_as_i32 (S754_finite false 5 30)))
                          (Some 12) (Some 16384) (Some [85; 83])))))
      :: rest.
Proof. apply (submit_proof_telemetry local_client node_1 [104] [1; 2; 3] (mock_world (SendOk 200) (Ok "") (Ok []))). discriminate. Defined.

(** ** Further properties of the client *)

Lemma run_bind {A B} (w : env) (m : io A) (f : A -> io B) :
  run w (io_bind m f)
  = let '(t, a) := run w m in let '(t', b) := run w (f a) in (t ++ t', b).
Proof.
  induction m as [a | v u h b k IH | k IH | k IH | k IH | k IH | s k IH]; simpl.
  - destruct (run w (f a)); reflexivity.
  - rewrite IH. destruct (run w (k _)) as [t a]. destruct (run w (f a)); reflexivity.
  - rewrite IH. destruct (run w (k _)) as [t a]. destruct (run w (f a)); reflexivity.
  - rewrite IH. destruct (run w (k _)) as [t a]. destruct (run w (f a)); reflexivity.
  - rewrite IH. destruct (run w (k _)) as [t a]. destruct (run w (f a)); reflexivity.
  - rewrite IH. destruct (run w (k _)) as [t a]. destruct (run w (f a)); reflexivity.
  - rewrite IH. destruct (run w k) as [t a]. destruct (run w (f a)); reflexivity.
Qed.

(** Case analysis on every answer the world can give to [make_request]. *)
Ltac answer_cases :=
  repeat (simpl;
    match goal with
    | |- context [String.eqb ?a ?b] => destruct (String.eqb a b)
    | |- context [env_send ?w ?a ?b ?c ?d] => destruct (env_send w a b c d)
    | |- context [is_success ?s] => destruct (is_success s)
    | |- context [env_text ?w] => destruct (env_text w)
    | |- context [env_bytes ?w] => destruct (env_bytes w)
    | |- context [@decode ?U ?M ?b] => destruct (@decode U M b)
    | |- context [is_empty ?b] => destruct (is_empty b)
    | |- context [env_memory ?w] => destruct (env_memory w)
    | |- context [decode_message ?d ?f ?b] => destruct (decode_message d f b)
    end).

Lemma float_as_i32_range (x : spec_float) : i32_range (float_as_i32 x).
Proof. unfold i32_range, float_as_i32. destruct x as [s|[|]| |s m e]; lia. Qed.

Lemma get_request_roundtrip (m : GetProofTaskRequest.t) :
  wf_get_proof_task_request m -> decode (encode_to_vec m) = Ok m.
Proof.
  intros Hm. simpl. apply decode_message_encode.
  - apply wf_get_proof_task_request_fields. exact Hm.
  - apply merge_get_proof_task_request. exact Hm.
Qed.

Lemma submit_request_roundtrip (m : SubmitProofRequest.t) :
  wf_submit_proof_request m -> decode (encode_to_vec m) = Ok m.
Proof.
  intros Hm. simpl. apply decode_message_encode.
  - apply wf_submit_proof_request_fields. exact Hm.
  - apply merge_submit_proof_request. exact Hm.
Qed.


Lemma snd_run_send {A} (w : env) v u h b (k : send_result -> io A) :
  snd (run w (Send v u h b k)) = snd (run w (k (env_send w v u h b))).
Proof. simpl. destruct (run w (k (env_send w v u h b))). reflexivity. Qed.

Section Extra.

Context {U : Type} `{MU : Message U}.


(** A 2xx answer with a body that decodes to [t]: [get_proof_task] returns
    [t], after one POST to base_url ++ "/tasks" and one body read. *)
Theorem get_proof_task_success (self : OrchestratorClient) (node_id : bytes) (w : env)
    (status : Z) (body : bytes) (t : U) :
  node_id <> [] -> answers w (SendOk status) -> is_success status = true ->
  env_bytes w = Ok body -> body <> [] -> decode body = Ok t ->
  run w (@get_proof_task U _ self node_id)
  = ([EvSend POST (base_url self ++ "/tasks") content_type_header
        (encode_to_vec (GetProofTaskRequest.mk node_id (NodeType_as_i32 CliProver)));
      EvBytes], Ok t).
Proof.
  intros Hid Hs Hok Hb Hne Hd.
  destruct node_id as [|c cs]; [congruence|].
  destruct body as [|d ds]; [congruence|].
  simpl. rewrite Hs. simpl. rewrite Hok. simpl. rewrite Hb. simpl. rewrite Hd.
  reflexivity.
Qed.

(** The body [get_proof_task] sends decodes to the request
    [{node_id, node_type: CliProver}]. *)
Theorem get_proof_task_request_decodes (self : OrchestratorClient) (node_id : bytes)
    (w : env) :
  node_id <> [] -> rust_string node_id ->
  exists body rest,
    fst (run w (@get_proof_task U _ self node_id))
    = EvSend POST (base_url self ++ "/tasks") content_type_header body :: rest
    /\ decode body = Ok (GetProofTaskRequest.mk node_id (NodeType_as_i32 CliProver)).
Proof.
  intros Hid Hs. destruct node_id as [|c cs]; [congruence|].
  exists (encode_to_vec (GetProofTaskRequest.mk (c :: cs) (NodeType_as_i32 CliProver))).
  assert (Hrt : decode (encode_to_vec (GetProofTaskRequest.mk (c :: cs) (NodeType_as_i32 CliProver)))
                = Ok (GetProofTaskRequest.mk (c :: cs) (NodeType_as_i32 CliProver)))
    by (apply get_request_roundtrip; split; [exact Hs | unfold i32_range; simpl; lia]).
  simpl. match goal with |- context [run w ?m] => destruct (run w m) as [t a] end.
  exists t. split; [reflexivity | exact Hrt].
Qed.

(** The body [submit_proof] sends decodes to the submission with its
    telemetry, given the Rust types of its inputs ([String]s, [Vec<u8>],
    the [i32] memory values). *)
Theorem submit_proof_request_decodes (self : OrchestratorClient)
    (node_id proof_hash proof : bytes) (w : env) :
  proof <> [] -> rust_string node_id -> rust_string proof_hash -> rust_vec proof ->
  i32_range (fst (env_memory w)) -> i32_range (snd (env_memory w)) ->
  exists body rest,
    fst (run w (submit_proof self node_id proof_hash proof))
    = EvMemory :: EvFlops
      :: EvSend POST (base_url self ++ "/tasks/submit") content_type_header body :: rest
    /\ decode body
       = Ok (SubmitProofRequest.mk node_id (NodeType_as_i32 CliProver) proof_hash proof
               (Some (NodeTelemetry.mk (Some (float_as_i32 (env_flops w)))
                        (Some (fst (env_memory w))) (Some (snd (env_memory w)))
                        (Some us_location)))).
Proof.
  intros Hp Hid Hh Hv Hm1 Hm2. destruct proof as [|c cs]; [congruence|].
  exists (encode_to_vec
    (SubmitProofRequest.mk node_id (NodeType_as_i32 CliProver) proof_hash (c :: cs)
       (Some (NodeTelemetry.mk (Some (float_as_i32 (env_flops w)))
                (Some (fst (env_memory w))) (Some (snd (env_memory w)))
                (Some us_location))))).
  match goal with |- exists rest, _ = _ /\ decode ?b = ?r =>
    assert (Hrt : decode b = r) end.
  { apply submit_request_roundtrip.
    unfold wf_submit_proof_request, wf_telemetry. simpl.
    split; [exact Hid|]. split; [unfold i32_range; lia|].
    split; [exact Hh|]. split; [exact Hv|].
    split; [apply float_as_i32_range|]. split; [exact Hm1|]. split; [exact Hm2|].
    split; [reflexivity | unfold rust_vec, us_location; simpl; lia]. }
  match goal with |- exists rest, ?l = ?e1 :: ?e2 :: ?e3 :: rest /\ _ =>
    enough (Hshape : exists rest, l = e1 :: e2 :: e3 :: rest)
      by (destruct Hshape as [rest Hr]; exists rest; split; [exact Hr | exact Hrt]) end.
  unfold submit_proof, make_request, verb_of_method.
  answer_cases; eexists; reflexivity.
Qed.


(** [submit_proof] prints its success line exactly when it returns [Ok]. *)
Theorem submit_proof_prints_iff_ok (self : OrchestratorClient)
    (node_id proof_hash proof : bytes) (w : env) :
  In (EvPrint submitted_message) (fst (run w (submit_proof self node_id proof_hash proof)))
  <-> snd (run w (submit_proof self node_id proof_hash proof)) = Ok tt.
Proof.
  unfold submit_proof, make_request, verb_of_method.
  answer_cases; simpl; split; intros Hx;
    first [ reflexivity | discriminate
          | intuition discriminate
          | repeat (first [left; reflexivity | right]) ].
Qed.

(** With a supported method, [make_request] first sends the encoded request
    to [base_url ++ url] with the Content-Type header, then reads at most one
    body: the text of a failure or the bytes of a success. *)
Theorem make_request_trace_shape {T : Type} `{MT : Message T}
    (self : OrchestratorClient) (url method : string) (req : T) (w : env) :
  supported method ->
  exists rest,
    fst (run w (@make_request T U _ _ self url method req))
    = EvSend (if String.eqb method "POST" then POST else GET)
        (base_url self ++ url)%string content_type_header (encode_to_vec req) :: rest
    /\ (rest = [] \/ rest = [EvText] \/ rest = [EvBytes]).
Proof.
  intros [-> | ->]; unfold make_request, verb_of_method; answer_cases;
    eexists; split; try reflexivity; auto.
Qed.

(** A 2xx answer whose body cannot be read: the read error is returned
    unchanged, and nothing is decoded. *)
Theorem make_request_bytes_error_passthrough {T : Type} `{MT : Message T}
    (self : OrchestratorClient) (url method : string) (req : T) (w : env)
    (status : Z) (e : string) :
  supported method -> answers w (SendOk status) -> is_success status = true ->
  env_bytes w = Err e ->
  snd (run w (@make_request T U _ _ self url method req)) = Err e.
Proof.
  intros [-> | ->] Hs Hok Hb; unfold make_request, verb_of_method; simpl;
    rewrite Hs; simpl; rewrite Hok; simpl; rewrite Hb; reflexivity.
Qed.

(** Against a server that answers every request alike, the outcome of
    [make_request] depends neither on the request message nor on the URL. *)
Theorem make_request_outcome_independent_of_request {T : Type} `{MT : Message T}
    (self1 self2 : OrchestratorClient) (url1 url2 method : string) (req1 req2 : T)
    (w : env) (r : send_result) :
  answers w r ->
  snd (run w (@make_request T U _ _ self1 url1 method req1))
  = snd (run w (@make_request T U _ _ self2 url2 method req2)).
Proof.
  intros Hs. unfold make_request.
  destruct (verb_of_method method) as [v|]; [|reflexivity].
  rewrite !snd_run_send, !Hs. reflexivity.
Qed.

(** Every error of [get_proof_task] is one of its own messages, the
    connection failure, an HTTP status failure, a decode failure, or the
    error of reading the response body. *)
Theorem get_proof_task_error_kinds (self : OrchestratorClient) (node_id : bytes) (w : env)
    (e : string) :
  snd (run w (@get_proof_task U _ self node_id)) = Err e ->
  e = "Invalid node ID"%string \/ e = "Failed to connect to orchestrator"%string
  \/ e = "Empty response from orchestrator"%string
  \/ (exists s t, e = ("HTTP " ++ s ++ ": " ++ t)%string)
  \/ (exists d, e = ("Protobuf decode error: " ++ d)%string)
  \/ env_text w = Err e \/ env_bytes w = Err e.
Proof.
  unfold get_proof_task.
  destruct (is_empty node_id); simpl; [intro H; injection H as <-; auto|].
  unfold make_request, verb_of_method. simpl.
  match goal with |- context [env_send ?w ?a ?b ?c ?d] =>
    destruct (env_send w a b c d) as [diag|status] end; simpl;
    [intro H; injection H as <-; auto|].
  destruct (is_success status); simpl.
  - destruct (env_bytes w) as [b|e1] eqn:Eb; simpl;
      [|intro H; injection H as <-; auto 10].
    destruct (is_empty b); simpl; [intro H; injection H as <-; auto|].
    destruct (decode b) as [t|d]; simpl; [discriminate|].
    intro H; injection H as <-; eauto 10.
  - destruct (env_text w) as [t|e1] eqn:Et; simpl; intro H; injection H as <-; eauto 10.
Qed.

(** [get_proof_task] never gathers telemetry and never prints. *)
Theorem get_proof_task_no_telemetry (self : OrchestratorClient) (node_id : bytes) (w : env) :
  ~ In EvMemory (fst (run w (@get_proof_task U _ self node_id)))
  /\ ~ In EvFlops (fst (run w (@get_proof_task U _ self node_id)))
  /\ (forall s, ~ In (EvPrint s) (fst (run w (@get_proof_task U _ self node_id)))).
Proof.
  split; [|split; [|intros s]]; unfold get_proof_task, make_request, verb_of_method;
    answer_cases; simpl; intuition discriminate.
Qed.



End Extra.


(** The body [get_proof_task] sends: field 1 holds the node id, field 2 the
    varint 1 of [CliProver]; no other byte. *)
Theorem get_proof_task_request_bytes (node_id : bytes) :
  node_id <> [] ->
  encode_to_vec (GetProofTaskRequest.mk node_id (NodeType_as_i32 CliProver))
  = 10 :: encode_varint (Z.of_nat (List.length node_id)) ++ node_id ++ [16; 1].
Proof.
  intros H. destruct node_id as [|c cs]; [congruence|].
  simpl. rewrite <- app_assoc. reflexivity.
Qed.

(** ** Instances of the further properties *)

Lemma get_proof_task_success_witness :
  let body := encode_to_vec (GetProofTaskRequest.mk node_1 1) in
  run (mock_world (SendOk 200) (Ok "") (Ok body))
    (@get_proof_task GetProofTaskRequest.t _ local_client node_1)
  = ([EvSend POST (base_url local_client ++ "/tasks") content_type_header
        (encode_to_vec (GetProofTaskRequest.mk node_1 (NodeType_as_i32 CliProver)));
      EvBytes], Ok (GetProofTaskRequest.mk node_1 1)).
Proof.
  apply (get_proof_task_success (U := GetProofTaskRequest.t) local_client node_1 _ 200
           (encode_to_vec (GetProofTaskRequest.mk node_1 1))).
  - discriminate.
  - intros v u h b. reflexivity.
  - reflexivity.
  - reflexivity.
  - vm_compute. discriminate.
  - vm_compute. reflexivity.
Defined.

Lemma get_proof_task_request_decodes_witness :
  exists body rest,
    fst (run (mock_world (SendOk 200) (Ok "") (Ok []))
           (@get_proof_task unit _ local_client node_1))
    = EvSend POST (base_url local_client ++ "/tasks") content_type_header body :: rest
    /\ decode body = Ok (GetProofTaskRequest.mk node_1 (NodeType_as_i32 CliProver)).
Proof.
  apply (get_proof_task_request_decodes (U := unit)).
  - discriminate.
  - split; [reflexivity | unfold rust_vec; simpl; lia].
Defined.

Lemma submit_proof_request_decodes_witness :
  let w := mock_world (SendOk 200) (Ok "") (Ok []) in
  exists body rest,
    fst (run w (submit_proof local_client node_1 [104; 49] [1; 2; 3]))
    = EvMemory :: EvFlops
      :: EvSend POST (base_url local_client ++ "/tasks/submit") content_type_header body :: rest
    /\ decode body
       = Ok (SubmitProofRequest.mk node_1 (NodeType_as_i32 CliProver) [104; 49] [1; 2; 3]
               (Some (NodeTelemetry.mk (Some (float_as_i32 (env_flops w)))
                        (Some (fst (env_memory w))) (Some (snd (env_memory w)))
                        (Some us_location)))).
Proof.
  apply submit_proof_request_decodes.
  - discriminate.
  - split; [reflexivity | unfold rust_vec; simpl; lia].
  - split; [reflexivity | unfold rust_vec; simpl; lia].
  - unfold rust_vec; simpl; lia.
  - unfold i32_range; simpl; lia.
  - unfold i32_range; simpl; lia.
Defined.


Lemma make_request_trace_shape_witness :
  exists rest,
    fst (run (mock_world (SendOk 200) (Ok "") (Ok []))
           (@make_request GetProofTaskRequest.t unit _ _ local_client "/tasks" "GET"
              (GetProofTaskRequest.mk node_1 1)))
    = EvSend (if String.eqb "GET" "POST" then POST else GET)
        (base_url local_client ++ "/tasks") content_type_header
        (encode_to_vec (GetProofTaskRequest.mk node_1 1)) :: rest
    /\ (rest = [] \/ rest = [EvText] \/ rest = [EvBytes]).
Proof. apply (make_request_trace_shape (U := unit)). right. reflexivity. Defined.

Lemma make_request_bytes_error_passthrough_witness :
  snd (run (mock_world (SendOk 204) (Ok "") (Err "error decoding response body"))
         (@make_request GetProofTaskRequest.t unit _ _ local_client "/tasks" "POST"
            (GetProofTaskRequest.mk node_1 1)))
  = Err "error decoding response body".
Proof.
  apply (make_request_bytes_error_passthrough (U := unit) local_client "/tasks" "POST"
           _ _ 204).
  - left. reflexivity.
  - intros v u h b. reflexivity.
  - reflexivity.
  - reflexivity.
Defined.

Lemma make_request_outcome_independent_of_request_witness :
  let w := mock_world (SendOk 500) (Ok "boom") (Ok []) in
  snd (run w (@make_request GetProofTaskRequest.t unit _ _ local_client "/tasks" "POST"
                (GetProofTaskRequest.mk node_1 1)))
  = snd (run w (@make_request GetProofTaskRequest.t unit _ _
                  {| base_url := "http://example.org" |} "/tasks/submit" "POST"
                  (GetProofTaskRequest.mk [] 0))).
Proof.
  apply (make_request_outcome_independent_of_request (U := unit) _ _ _ _ _ _ _ _ (SendOk 500)).
  intros v u h b. reflexivity.
Defined.

Lemma get_proof_task_error_kinds_witness :
  exists e,
    snd (run (mock_world (SendOk 404) (Ok "no task") (Ok []))
           (@get_proof_task unit _ local_client node_1)) = Err e
    /\ (e = "Invalid node ID"%string \/ e = "Failed to connect to orchestrator"%string
        \/ e = "Empty response from orchestrator"%string
        \/ (exists s t, e = ("HTTP " ++ s ++ ": " ++ t)%string)
        \/ (exists d, e = ("Protobuf decode error: " ++ d)%string)
        \/ env_text (mock_world (SendOk 404) (Ok "no task") (Ok [])) = Err e
        \/ env_bytes (mock_world (SendOk 404) (Ok "no task") (Ok [])) = Err e).
Proof.
  eexists. split; [reflexivity|].
  apply (get_proof_task_error_kinds (U := unit) local_client node_1). reflexivity.
Defined.

Lemma get_proof_task_request_bytes_witness :
  encode_to_vec (GetProofTaskRequest.mk node_1 (NodeType_as_i32 CliProver))
  = 10 :: encode_varint (Z.of_nat (List.length node_1)) ++ node_1 ++ [16; 1].
Proof. apply get_proof_task_request_bytes. discriminate. Defined.


